(** * open_spiel/games: the 2048 state header and the Kalah tests

    A shallow embedding of what the two source files define:

    - [open_spiel/games/2048.h]: the constants, the turn-history record, the
      data members of [TwoZeroFourEightState] and the three member functions
      whose bodies the header gives ([CurrentPlayer], [SetBoard], [BoardAt]);
      every other member function is declared there without a body;
    - [open_spiel/games/kalah_test.cc]: the three board scenarios, run against
      a model of the sowing move they test.

    C++ [int] values are integers of [Z]; an operation whose C++ behaviour is
    undefined (signed overflow, indexing a vector outside its size) yields
    [None]. *)

From Stdlib Require Import ZArith List Bool Lia.
From stdpp Require Import base option numbers list.

Local Open Scope Z_scope.

(** ** open_spiel/games/2048.h *)

Module TwoZeroFourEight.

(** [Player] and [Action] are the framework's integer types. *)
Definition Player : Type := Z.
Definition Action : Type := Z.

Definition kNumPlayers : Z := 2.
Definition kDefaultRows : Z := 4.
Definition kDefaultColumns : Z := 4.
Definition kNumChanceTiles : Z := 2.
Definition kMaxMovesWithoutCapture : Z := 40.
Definition kCellStates : Z := 5.
Definition kNoMultipleJumpsPossible : Z := -1.
Definition kNoCellAvailableAction : Z := -2.

Inductive PieceType : Type :=
| kMan
| kKing.

Record TurnHistoryInfo : Type := mkTurnHistoryInfo {
  action : Action;
  player : Player;
  captured_piece_type : PieceType;
  player_piece_type : PieceType
}.

(** The data members of [TwoZeroFourEightState], in the header's order. *)
Record State : Type := mkState {
  current_player_ : Player;
  outcome_ : Player;
  multiple_jump_piece_ : Z;
  rows_ : Z;
  columns_ : Z;
  moves_without_capture_ : Z;
  board_ : list Z;
  turn_history_info_ : list TurnHistoryInfo
}.

(** *** 32-bit [int] arithmetic and [std::vector] indexing *)

Definition int_min : Z := - 2 ^ 31.
Definition int_max : Z := 2 ^ 31 - 1.

Definition is_int (z : Z) : bool := (int_min <=? z) && (z <=? int_max).

(** [row * columns_ + column] on [int]s: signed overflow is undefined. *)
Definition flat_index (s : State) (row column : Z) : option Z :=
  let p := row * columns_ s in
  if is_int p && is_int (p + column) then Some (p + column) else None.

(** [v[i]] on a [std::vector]: defined for [0 <= i < v.size()] only. *)
Definition vector_index (v : list Z) (i : Z) : option nat :=
  if (0 <=? i) && (i <? Z.of_nat (length v)) then Some (Z.to_nat i) else None.

(** The element of [board_] that [(row, column)] addresses. *)
Definition cell_index (s : State) (row column : Z) : option nat :=
  i ← flat_index s row column; vector_index (board_ s) i.

Definition with_board (s : State) (b : list Z) : State :=
  {| current_player_ := current_player_ s;
     outcome_ := outcome_ s;
     multiple_jump_piece_ := multiple_jump_piece_ s;
     rows_ := rows_ s;
     columns_ := columns_ s;
     moves_without_capture_ := moves_without_capture_ s;
     board_ := b;
     turn_history_info_ := turn_history_info_ s |}.

(** [void SetBoard(int row, int column, int num)
      { board_[row * columns_ + column] = num; }] *)
Definition SetBoard (s : State) (row column num : Z) : option State :=
  k ← cell_index s row column; Some (with_board s (<[k := num]> (board_ s))).

(** [int BoardAt(int row, int column) const
      { return board_[row * columns_ + column]; }] *)
Definition BoardAt (s : State) (row column : Z) : option Z :=
  k ← cell_index s row column; board_ s !! k.

(** A board laid out as the class intends: [rows_ * columns_] cells, the
    product an [int]. *)
Definition board_wf (s : State) : Prop :=
  0 < rows_ s /\ 0 < columns_ s /\
  rows_ s * columns_ s <= int_max /\
  Z.of_nat (length (board_ s)) = rows_ s * columns_ s.

Section Framework.

(** The player ids of [open_spiel/spiel.h] and the out-of-line member
    [IsTerminal]: the header uses them and does not define them. *)
Variables kInvalidPlayer kTerminalPlayerId kChancePlayerId : Player.
Variable IsTerminal : State -> bool.

(** [Player CurrentPlayer() const override
      { return IsTerminal() ? kTerminalPlayerId : current_player_; }] *)
Definition CurrentPlayer (s : State) : Player :=
  if IsTerminal s then kTerminalPlayerId else current_player_ s.

(** The default member initialisers of the class:
    [current_player_ = kChancePlayerId], [outcome_ = kInvalidPlayer],
    [multiple_jump_piece_ = kNoMultipleJumpsPossible]. The members the header
    leaves without an initialiser are arguments. *)
Definition default_members (rows columns moves : Z) (board : list Z)
    (history : list TurnHistoryInfo) : State :=
  {| current_player_ := kChancePlayerId;
     outcome_ := kInvalidPlayer;
     multiple_jump_piece_ := kNoMultipleJumpsPossible;
     rows_ := rows;
     columns_ := columns;
     moves_without_capture_ := moves;
     board_ := board;
     turn_history_info_ := history |}.

End Framework.

(** A state with the default dimensions ([kDefaultRows] by [kDefaultColumns])
    and every cell 0, for running the functions. *)
Definition sample_state : State :=
  {| current_player_ := 0;
     outcome_ := 0;
     multiple_jump_piece_ := kNoMultipleJumpsPossible;
     rows_ := kDefaultRows;
     columns_ := kDefaultColumns;
     moves_without_capture_ := 0;
     board_ := replicate 16 0;
     turn_history_info_ := [] |}.

End TwoZeroFourEight.

(** ** open_spiel/games/kalah_test.cc *)

Module Kalah.

(** kalah.cc and kalah.h are not among the sources: the move below is
    modelled from the spec's rules of the counting game (section 4.3), on the
    board the tests use. The board is the 14 integers that the tests pass to
    [SetBoard] and read with [BoardAt]; players are 0 and 1. *)
Definition kTotalPits : nat := 14.

Definition Player : Type := nat.

Definition opponent (p : Player) : Player := (1 - p)%nat.

(** Modelled from the spec: the "store" of a player, at the index the tests
    read it. [CaptureWhenOppositeHouseNotEmptyTest] checks player 0's store
    at [BoardAt(7)]; [DoNotAddSeedToOpponentsStoreTest] checks the
    "opponents store" of player 0 at [BoardAt(0)]. *)
Definition store (p : Player) : nat := if (p =? 0)%nat then 7%nat else 0%nat.

(** Modelled from the spec: the houses that "belong to" a player. The tests
    have houses 1, 3 and 6 legal for player 0 and houses 8, 9 and 10 not: player
    0 owns the houses between the stores, 1..6, and player 1 owns 8..13. *)
Definition owns_house (p : Player) (i : nat) : bool :=
  if (p =? 0)%nat then (1 <=? i)%nat && (i <=? 6)%nat
  else (8 <=? i)%nat && (i <=? 13)%nat.

(** Modelled from the spec: the "directly-opposite house". In the tests the
    seed that lands in house 4 captures the seeds of house 10 and leaves
    those of house 9: house [i] faces house [14 - i]. *)
Definition opposite (i : nat) : nat := (kTotalPits - i)%nat.

(** [BoardAt(i)]: the tests read pits 0..13 of a 14-pit board only. *)
Definition BoardAt (b : list Z) (i : nat) : Z := b !!! i.

(** Modelled from the spec: the order of sowing of [KalahState::DoApplyAction]
    (kalah.cc is not among the sources). "One seed per subsequent house in a
    fixed cyclic order, skipping the opponent's store house entirely." *)
Definition next_pit (p : Player) (i : nat) : nat :=
  let j := ((i + 1) mod kTotalPits)%nat in
  if (j =? store (opponent p))%nat then ((j + 1) mod kTotalPits)%nat else j.

(** Modelled from the spec: the sowing loop of [KalahState::DoApplyAction].
    [n] seeds, one per pit, the first into the pit after [pit]; the result is
    the pit of the last seed and the board. *)
Fixpoint sow (p : Player) (n : nat) (pit : nat) (b : list Z) : nat * list Z :=
  match n with
  | O => (pit, b)
  | S n' =>
      let pit' := next_pit p pit in
      sow p n' pit' (<[pit' := b !!! pit' + 1]> b)
  end.

(** The pits the [n] seeds fall into, in order. *)
Fixpoint sow_path (p : Player) (n : nat) (pit : nat) : list nat :=
  match n with
  | O => []
  | S n' => let pit' := next_pit p pit in pit' :: sow_path p n' pit'
  end.

(** Modelled from the spec: the legality test of [KalahState::LegalActions].
    "A move is legal iff the chosen house is non-empty and belongs to the
    current player." *)
Definition is_legal (p : Player) (b : list Z) (a : nat) : bool :=
  owns_house p a && (0 <? b !!! a).

(** Modelled from the spec: [KalahState::LegalActions]. "Legal-action ids are
    returned in ascending house-index order." *)
Definition LegalActions (p : Player) (b : list Z) : list nat :=
  List.filter (is_legal p b) (seq 0 kTotalPits).

(** Modelled from the spec: the first half of [KalahState::DoApplyAction].
    The chosen house is emptied and its seeds are sown. *)
Definition sow_from (p : Player) (b : list Z) (a : nat) : nat * list Z :=
  sow p (Z.to_nat (b !!! a)) a (<[a := 0]> b).

(** Modelled from the spec: the capture test of [KalahState::DoApplyAction].
    "If the last seed lands in a currently-empty house belonging to the mover
    and the directly-opposite house is non-empty": the house was empty before
    the last seed fell, so it holds that one seed now. *)
Definition captures (p : Player) (last : nat) (b : list Z) : bool :=
  (b !!! last =? 1) && owns_house p last && (0 <? b !!! opposite last).

(** Modelled from the spec: the capture of [KalahState::DoApplyAction].
    "Both the landed seed and the opposite house's contents move to the
    mover's store." *)
Definition capture (p : Player) (last : nat) (b : list Z) : list Z :=
  <[opposite last := 0]>
    (<[last := 0]>
      (<[store p := b !!! store p + (1 + b !!! opposite last)]> b)).

(** Modelled from the spec: the board that [KalahState::DoApplyAction] leaves
    when player [p] plays house [a]; [None] for an action that is not legal
    ("fails if [id] is not currently legal"). *)
Definition ApplyAction (p : Player) (b : list Z) (a : nat) : option (list Z) :=
  if is_legal p b a then
    let '(last, b1) := sow_from p b a in
    Some (if captures p last b1 then capture p last b1 else b1)
  else None.

(** The number of seeds that reaches the mover's own store from house [a]:
    the pits from [a + 1] to the store, in sowing order. *)
Definition seeds_to_store (p : Player) (a : nat) : nat :=
  if (p =? 0)%nat then (7 - a)%nat else (14 - a)%nat.

(** Thirteen seeds sown from pit [i] visit every pit other than the
    opponent's store once and end in [i] (checked for every pit [i] that is
    not the opponent's store). *)
Definition cycle_ok (p : Player) (i : nat) : bool :=
  (i =? store (opponent p))%nat ||
  ((Nat.iter 13 (next_pit p) i =? i)%nat &&
   forallb (fun j => (j =? store (opponent p))%nat ||
                     (count_occ Nat.eq_dec (sow_path p 13 i) j =? 1)%nat)
           (seq 0 kTotalPits)).

(** Case analysis on a player id below 2. *)
Ltac two_players p H :=
  destruct p as [|[|p]]; [ | | exfalso; clear - H; lia ].

(** *** The tests of kalah_test.cc

    Each is [true] when every [SPIEL_CHECK_EQ] of the test holds. The state is
    a new initial state after [SetBoard]: player 0 is to move. *)

Definition check_board (r : option (list Z)) (checks : list (nat * Z)) : bool :=
  match r with
  | Some b => forallb (fun c => BoardAt b c.1 =? c.2) checks
  | None => false
  end.

Definition CaptureWhenOppositeHouseNotEmptyTest : bool :=
  let board := [0; 0; 0; 1; 0; 0; 0; 0; 0; 0; 4; 0; 0; 0] in
  let legal_actions := LegalActions 0%nat board in
  (length legal_actions =? 1)%nat &&
  (legal_actions !!! 0%nat =? 3)%nat &&
  check_board (ApplyAction 0%nat board (legal_actions !!! 0%nat)) [(7%nat, 5)].

Definition DoNotCaptureWhenOppositeHouseIsEmptyTest : bool :=
  let board := [0; 0; 0; 1; 0; 0; 0; 0; 0; 4; 0; 0; 0; 0] in
  let legal_actions := LegalActions 0%nat board in
  (length legal_actions =? 1)%nat &&
  (legal_actions !!! 0%nat =? 3)%nat &&
  check_board (ApplyAction 0%nat board (legal_actions !!! 0%nat))
    [(7%nat, 0); (3%nat, 0); (4%nat, 1); (9%nat, 4)].

Definition DoNotAddSeedToOpponentsStoreTest : bool :=
  let board := [0; 1; 0; 0; 0; 0; 8; 0; 1; 0; 0; 0; 0; 0] in
  let legal_actions := LegalActions 0%nat board in
  (length legal_actions =? 2)%nat &&
  (legal_actions !!! 0%nat =? 1)%nat &&
  (legal_actions !!! 1%nat =? 6)%nat &&
  check_board (ApplyAction 0%nat board (legal_actions !!! 1%nat))
    [(0%nat, 0); (7%nat, 1); (8%nat, 2); (1%nat, 2)].

(** The board of [DoNotAddSeedToOpponentsStoreTest]: house 6 holds 8 seeds. *)
Definition board_house6 : list Z := [0; 1; 0; 0; 0; 0; 8; 0; 1; 0; 0; 0; 0; 0].

(** The board of the spec's capture scenario as its text words it: house 3
    holds 1 seed, house 9 holds 4 seeds, every other pit is empty. *)
Definition board_house9 : list Z := [0; 0; 0; 1; 0; 0; 0; 0; 0; 4; 0; 0; 0; 0].

(** The board of [CaptureWhenOppositeHouseNotEmptyTest]: house 3 holds 1 seed,
    house 10 holds 4 seeds. *)
Definition board_house10 : list Z := [0; 0; 0; 1; 0; 0; 0; 0; 0; 0; 4; 0; 0; 0].

End Kalah.

(** ** Properties of the 2048 state *)

Module TwoZeroFourEightProofs.
Import TwoZeroFourEight.

Lemma is_int_spec (z : Z) : is_int z = true <-> int_min <= z <= int_max.
Proof.
  unfold is_int. rewrite andb_true_iff, !Z.leb_le. tauto.
Qed.

Lemma flat_index_Some (s : State) (r c i : Z) :
  flat_index s r c = Some i -> i = r * columns_ s + c.
Proof.
  unfold flat_index. destruct (_ && _); congruence.
Qed.

Lemma vector_index_Some (v : list Z) (i : Z) (k : nat) :
  vector_index v i = Some k ->
  0 <= i < Z.of_nat (length v) /\ k = Z.to_nat i.
Proof.
  unfold vector_index.
  destruct ((0 <=? i) && (i <? Z.of_nat (length v))) eqn:E; [|discriminate].
  apply andb_true_iff in E as [H0 H1].
  apply Z.leb_le in H0. apply Z.ltb_lt in H1.
  intros [= <-]. auto.
Qed.

(** What [cell_index] returns is the flat row-major index, inside the
    vector. *)
Lemma cell_index_Some (s : State) (r c : Z) (k : nat) :
  cell_index s r c = Some k ->
  k = Z.to_nat (r * columns_ s + c) /\ (k < length (board_ s))%nat.
Proof.
  unfold cell_index. intros H.
  destruct (flat_index s r c) as [i|] eqn:Hf; [|discriminate].
  apply flat_index_Some in Hf. simpl in H.
  apply vector_index_Some in H as [Hi ->]. subst i. split; [reflexivity|lia].
Qed.

(** In-bounds coordinates of a well-formed board address the vector. *)
Lemma cell_index_in_bounds (s : State) (r c : Z) :
  board_wf s -> 0 <= r < rows_ s -> 0 <= c < columns_ s ->
  cell_index s r c = Some (Z.to_nat (r * columns_ s + c)).
Proof.
  intros (Hr & Hc & Hmax & Hlen) Hrow Hcol.
  assert (Hp : 0 <= r * columns_ s <= (rows_ s - 1) * columns_ s) by nia.
  assert (Hi : 0 <= r * columns_ s + c < rows_ s * columns_ s) by nia.
  assert (Hmin : int_min <= 0) by (unfold int_min; lia).
  unfold cell_index, flat_index.
  assert (E1 : is_int (r * columns_ s) = true) by (apply is_int_spec; nia).
  assert (E2 : is_int (r * columns_ s + c) = true) by (apply is_int_spec; lia).
  rewrite E1, E2. simpl. unfold vector_index.
  assert (E3 : (0 <=? r * columns_ s + c) = true) by (apply Z.leb_le; lia).
  assert (E4 : (r * columns_ s + c <? Z.of_nat (length (board_ s))) = true)
    by (apply Z.ltb_lt; lia).
  rewrite E3, E4. reflexivity.
Qed.

(** The one past the last column of row 0 is not a cell of the board; its flat
    index is that of cell (1, 0). *)
Lemma flat_index_past_row (s : State) :
  board_wf s -> 1 < rows_ s ->
  flat_index s 0 (columns_ s) = flat_index s 1 0 /\
  cell_index s 1 0 = Some (Z.to_nat (columns_ s)).
Proof.
  intros Hwf Hrows. split.
  - unfold flat_index.
    rewrite Z.mul_0_l, Z.mul_1_l, Z.add_0_l, Z.add_0_r.
    change (is_int 0) with true. by destruct (is_int (columns_ s)).
  - rewrite (cell_index_in_bounds s 1 0 Hwf) by (destruct Hwf; lia).
    do 2 f_equal. lia.
Qed.

Lemma SetBoard_by_flat_index (s : State) (r c r' c' num : Z) :
  flat_index s r' c' = flat_index s r c ->
  SetBoard s r' c' num = SetBoard s r c num /\ BoardAt s r' c' = BoardAt s r c.
Proof.
  intros H. unfold SetBoard, BoardAt, cell_index. rewrite H. auto.
Qed.

(** C10. [SetBoard(row, column, num)] writes the one entry of [board_] at
    flat row-major index [row * columns_ + column]: every other cell and
    every other member of the state keep their values, and
    [BoardAt(row, column)] reads that same entry, so after the write it
    returns [num]. This holds for every in-bounds [(row, column)] of a
    well-formed board. Neither function checks [row] against [rows_] or
    [column] against [columns_]: both see the coordinates through the flat
    index only, so the out-of-bounds pair [(0, columns_)] is accepted and is
    cell [(1, 0)]. *)
Theorem SetBoard_BoardAt_frame (s : State) (row column num : Z) :
  (board_wf s -> 0 <= row < rows_ s -> 0 <= column < columns_ s ->
   cell_index s row column = Some (Z.to_nat (row * columns_ s + column)) /\
   exists s' : State,
     SetBoard s row column num = Some s' /\ BoardAt s' row column = Some num) /\
  (forall k : nat, cell_index s row column = Some k ->
   k = Z.to_nat (row * columns_ s + column) /\
   exists s' : State,
     SetBoard s row column num = Some s' /\
     board_ s' = <[k := num]> (board_ s) /\
     board_ s' !! k = Some num /\
     (forall j : nat, j <> k -> board_ s' !! j = board_ s !! j) /\
     length (board_ s') = length (board_ s) /\
     current_player_ s' = current_player_ s /\
     outcome_ s' = outcome_ s /\
     multiple_jump_piece_ s' = multiple_jump_piece_ s /\
     rows_ s' = rows_ s /\
     columns_ s' = columns_ s /\
     moves_without_capture_ s' = moves_without_capture_ s /\
     turn_history_info_ s' = turn_history_info_ s /\
     BoardAt s' row column = Some num) /\
  (forall row' column' : Z,
   flat_index s row' column' = flat_index s row column ->
   SetBoard s row' column' num = SetBoard s row column num /\
   BoardAt s row' column' = BoardAt s row column) /\
  (board_wf s -> 1 < rows_ s ->
   SetBoard s 0 (columns_ s) num = SetBoard s 1 0 num /\
   BoardAt s 0 (columns_ s) = BoardAt s 1 0 /\
   is_Some (SetBoard s 0 (columns_ s) num) /\
   is_Some (BoardAt s 0 (columns_ s))).
Proof.
  assert (Hwrite : forall k : nat, cell_index s row column = Some k ->
            BoardAt (with_board s (<[k := num]> (board_ s))) row column
            = Some num).
  { intros k Hk. destruct (cell_index_Some _ _ _ _ Hk) as [_ Hlt].
    unfold BoardAt, cell_index in *.
    destruct (flat_index s row column) as [i|] eqn:Hf; [|discriminate].
    assert (Hf' : flat_index (with_board s (<[k := num]> (board_ s)))
                    row column = Some i) by exact Hf.
    rewrite Hf'. simpl in *.
    unfold vector_index in *. rewrite length_insert.
    destruct (_ && _); [|discriminate].
    injection Hk as <-. simpl. apply list_lookup_insert_eq. lia. }
  split.
  { intros Hwf Hrow Hcol.
    pose proof (cell_index_in_bounds s row column Hwf Hrow Hcol) as Hk.
    split; [exact Hk|]. eexists. unfold SetBoard. rewrite Hk. simpl.
    split; [reflexivity|]. by apply Hwrite. }
  split; [|split].
  - intros k Hk. destruct (cell_index_Some _ _ _ _ Hk) as [Hkz Hlt].
    split; [exact Hkz|].
    exists (with_board s (<[k := num]> (board_ s))).
    unfold SetBoard. rewrite Hk. simpl.
    repeat split.
    + by apply list_lookup_insert_eq.
    + intros j Hj. by apply list_lookup_insert_ne.
    + apply length_insert.
    + by apply Hwrite.
  - intros row' column'. apply SetBoard_by_flat_index.
  - intros Hwf Hrows.
    destruct (flat_index_past_row s Hwf Hrows) as [Hflat Hcell].
    destruct (SetBoard_by_flat_index s 1 0 0 (columns_ s) num Hflat) as [-> ->].
    split; [reflexivity|]. split; [reflexivity|].
    unfold SetBoard, BoardAt. rewrite Hcell. simpl. split; [eauto|].
    apply lookup_lt_is_Some.
    apply cell_index_Some in Hcell. lia.
Qed.

(** The functions run on the 4 x 4 sample: cell (1, 2) is element 6 of the
    vector; the pairs (0, 6) and (-1, 10) are outside the board and reach
    that element all the same; (4, 0) is outside the vector. *)
Lemma SetBoard_BoardAt_frame_witness :
  board_wf sample_state /\
  cell_index sample_state 1 2 = Some 6%nat /\
  (exists s' : State,
     SetBoard sample_state 1 2 2 = Some s' /\
     board_ s' = [0; 0; 0; 0; 0; 0; 2; 0; 0; 0; 0; 0; 0; 0; 0; 0] /\
     BoardAt s' 1 2 = Some 2 /\
     BoardAt s' 0 6 = Some 2 /\
     BoardAt s' (-1) 10 = Some 2) /\
  SetBoard sample_state 4 0 2 = None /\
  BoardAt sample_state 4 0 = None.
Proof.
  split; [unfold board_wf; vm_compute; intuition congruence|].
  split; [reflexivity|].
  split; [|split; reflexivity].
  destruct (SetBoard_BoardAt_frame sample_state 1 2 2)
    as (_ & Hwrite & _).
  destruct (Hwrite 6%nat eq_refl)
    as (_ & s' & Hset & Hboard & _ & _ & _ & _ & _ & _ & _ & Hcols & _ & _
        & Hread).
  exists s'. split; [exact Hset|]. split; [exact Hboard|].
  split; [exact Hread|].
  unfold BoardAt, cell_index, flat_index.
  rewrite Hcols, Hboard. split; reflexivity.
Defined.

Section CurrentPlayerFacts.

Variables kInvalidPlayer kTerminalPlayerId kChancePlayerId : Player.
Variable IsTerminal : State -> bool.

Local Abbreviation CurrentPlayer := (CurrentPlayer kTerminalPlayerId IsTerminal).
Local Abbreviation default_members :=
  (default_members kInvalidPlayer kChancePlayerId).

(** C9. [CurrentPlayer()] is [kTerminalPlayerId] whenever [IsTerminal()] is
    true, whatever [current_player_] holds, and is [current_player_]
    otherwise; the member initialiser every constructor starts from sets
    [current_player_] to [kChancePlayerId]. *)
Theorem CurrentPlayer_terminal_or_stored (s : State) :
  (IsTerminal s = true -> CurrentPlayer s = kTerminalPlayerId) /\
  (IsTerminal s = false -> CurrentPlayer s = current_player_ s) /\
  (forall (rows columns moves : Z) (board : list Z)
          (history : list TurnHistoryInfo),
     let fresh := default_members rows columns moves board history in
     current_player_ fresh = kChancePlayerId /\
     (IsTerminal fresh = false -> CurrentPlayer fresh = kChancePlayerId)).
Proof.
  unfold TwoZeroFourEight.CurrentPlayer.
  split; [|split].
  - intros ->. reflexivity.
  - intros ->. reflexivity.
  - intros rows columns moves board history.
    split; [reflexivity|]. intros ->. reflexivity.
Qed.

End CurrentPlayerFacts.

(** [CurrentPlayer] run with -4 for the terminal id and -1 for the chance id,
    once with every state terminal and once with none. *)
Lemma CurrentPlayer_terminal_or_stored_witness :
  CurrentPlayer (-4) (fun _ => true) sample_state = -4 /\
  CurrentPlayer (-4) (fun _ => false) sample_state = 0 /\
  CurrentPlayer (-4) (fun _ => false)
    (default_members (-3) (-1) 4 4 0 (replicate 16 0) []) = -1.
Proof.
  destruct (CurrentPlayer_terminal_or_stored (-3) (-4) (-1) (fun _ => true)
              sample_state) as (Hterm & _ & _).
  destruct (CurrentPlayer_terminal_or_stored (-3) (-4) (-1) (fun _ => false)
              sample_state) as (_ & Hstored & Hfresh).
  split; [exact (Hterm eq_refl)|]. split; [exact (Hstored eq_refl)|].
  exact (proj2 (Hfresh 4 4 0 (replicate 16 0) []) eq_refl).
Defined.

End TwoZeroFourEightProofs.

(** ** Properties of the Kalah sowing move *)

Module KalahProofs.
Import Kalah.

Local Open Scope nat_scope.

Lemma next_pit_lt (p : Player) (i : nat) : next_pit p i < kTotalPits.
Proof.
  unfold next_pit, kTotalPits.
  destruct (_ =? _); apply Nat.mod_upper_bound; lia.
Qed.

Lemma next_pit_not_opponent_store (p : Player) (i : nat) :
  p < 2 -> next_pit p i <> store (opponent p).
Proof.
  intros Hp. unfold next_pit, kTotalPits.
  pose proof (Nat.mod_upper_bound (i + 1) 14 ltac:(lia)) as Hj.
  destruct (Nat.eqb_spec ((i + 1) mod 14) (store (opponent p))) as [->|Hne];
    [|exact Hne].
  two_players p Hp; vm_compute; lia.
Qed.

Lemma sow_path_length (p : Player) (n pit : nat) :
  length (sow_path p n pit) = n.
Proof.
  revert pit. induction n as [|n IH]; intros pit; simpl; [|rewrite IH]; reflexivity.
Qed.

Lemma sow_path_lt (p : Player) (n pit j : nat) :
  In j (sow_path p n pit) -> j < kTotalPits.
Proof.
  revert pit. induction n as [|n IH]; intros pit; simpl; [tauto|].
  intros [<-|Hin]; [apply next_pit_lt|eauto].
Qed.

Lemma sow_path_not_opponent_store (p : Player) (n pit : nat) :
  p < 2 -> ~ In (store (opponent p)) (sow_path p n pit).
Proof.
  intros Hp. revert pit. induction n as [|n IH]; intros pit; simpl; [tauto|].
  intros [Heq|Hin].
  - by apply (next_pit_not_opponent_store p pit).
  - by apply (IH (next_pit p pit)).
Qed.

(** A longer sowing from the same house extends the path. *)
Lemma sow_path_app (p : Player) (n m pit : nat) :
  sow_path p (n + m) pit =
  sow_path p n pit ++ sow_path p m (Nat.iter n (next_pit p) pit).
Proof.
  revert pit. induction n as [|n IH]; intros pit; [reflexivity|].
  cbn [Nat.add sow_path]. rewrite IH, Nat.iter_succ_r. reflexivity.
Qed.

Lemma sow_path_mono (p : Player) (d n pit j : nat) :
  d <= n -> In j (sow_path p d pit) -> In j (sow_path p n pit).
Proof.
  intros Hle Hin. replace n with (d + (n - d)) by lia.
  rewrite sow_path_app. apply in_or_app. by left.
Qed.

Lemma sow_length (p : Player) (n pit : nat) (b : list Z) :
  length (sow p n pit b).2 = length b.
Proof.
  revert pit b. induction n as [|n IH]; intros pit b; simpl; [reflexivity|].
  rewrite IH. apply length_insert.
Qed.

Lemma sow_last_pit (p : Player) (n pit : nat) (b : list Z) :
  (sow p n pit b).1 = Nat.iter n (next_pit p) pit.
Proof.
  revert pit b. induction n as [|n IH]; intros pit b; [reflexivity|].
  rewrite Nat.iter_succ_r. cbn [sow]. apply IH.
Qed.

(** Each pit gains one seed for every time the path passes it. *)
Lemma sow_lookup (p : Player) (n pit : nat) (b : list Z) (j : nat) :
  length b = kTotalPits ->
  ((sow p n pit b).2 !!! j =
   b !!! j + Z.of_nat (count_occ Nat.eq_dec (sow_path p n pit) j))%Z.
Proof.
  revert pit b. induction n as [|n IH]; intros pit b Hlen.
  - simpl. lia.
  - cbn [sow sow_path]. rewrite IH by (by rewrite length_insert).
    pose proof (next_pit_lt p pit) as Hlt.
    destruct (Nat.eq_dec (next_pit p pit) j) as [<-|Hne].
    + rewrite count_occ_cons_eq by reflexivity.
      rewrite list_lookup_total_insert_eq by (rewrite Hlen; exact Hlt). lia.
    + rewrite count_occ_cons_neq by exact Hne.
      rewrite list_lookup_total_insert_ne by exact Hne. lia.
Qed.

(** The order is one fixed cycle through the 13 pits that are not the
    opponent's store: 13 seeds visit each of them once and end where they
    started. *)
Lemma sow_cycle (p : Player) (i j : nat) :
  p < 2 -> i < kTotalPits -> i <> store (opponent p) ->
  j < kTotalPits -> j <> store (opponent p) ->
  Nat.iter 13 (next_pit p) i = i /\
  count_occ Nat.eq_dec (sow_path p 13 i) j = 1.
Proof.
  intros Hp Hi Hi' Hj Hj'.
  assert (Hall : forallb (fun q => forallb (cycle_ok q) (seq 0 kTotalPits))
                   (seq 0 2) = true) by (vm_compute; reflexivity).
  rewrite forallb_forall in Hall.
  specialize (Hall p ltac:(apply in_seq; lia)).
  rewrite forallb_forall in Hall.
  specialize (Hall i ltac:(apply in_seq; unfold kTotalPits in *; lia)).
  unfold cycle_ok in Hall.
  apply orb_true_iff in Hall as [Hs|Hc].
  { apply Nat.eqb_eq in Hs. contradiction. }
  apply andb_true_iff in Hc as [Hend Hcount].
  apply Nat.eqb_eq in Hend. split; [exact Hend|].
  rewrite forallb_forall in Hcount.
  specialize (Hcount j ltac:(apply in_seq; unfold kTotalPits in *; lia)).
  apply orb_true_iff in Hcount as [Hs|Hc].
  { apply Nat.eqb_eq in Hs. contradiction. }
  by apply Nat.eqb_eq in Hc.
Qed.

Lemma owns_house_cases (p : Player) (i : nat) :
  p < 2 -> owns_house p i = true ->
  (p = 0 /\ 1 <= i <= 6) \/ (p = 1 /\ 8 <= i <= 13).
Proof.
  intros Hp. unfold owns_house.
  two_players p Hp; cbn [Nat.eqb]; rewrite andb_true_iff, !Nat.leb_le; lia.
Qed.

Lemma owns_house_range (p : Player) (i : nat) :
  p < 2 -> owns_house p i = true ->
  i < kTotalPits /\ i <> store p /\ i <> store (opponent p) /\
  opposite i < kTotalPits /\
  opposite i <> store p /\ opposite i <> store (opponent p) /\
  opposite i <> i.
Proof.
  intros Hp Hown. unfold opposite, kTotalPits.
  destruct (owns_house_cases p i Hp Hown) as [[-> Hi]|[-> Hi]];
    change (store (opponent 0)) with 0; change (store (opponent 1)) with 7;
    change (store 0) with 7; change (store 1) with 0; lia.
Qed.

(** From one of the mover's houses, [seeds_to_store] seeds reach the mover's
    store. *)
Lemma store_on_path (p : Player) (a : nat) :
  p < 2 -> owns_house p a = true ->
  In (store p) (sow_path p (seeds_to_store p a) a).
Proof.
  intros Hp Hown.
  destruct (owns_house_cases p a Hp Hown) as [[-> Ha]|[-> Ha]].
  - assert (Hin : In a [1; 2; 3; 4; 5; 6]) by (simpl; lia).
    simpl in Hin.
    repeat (destruct Hin as [<-|Hin]; [vm_compute; tauto|]). contradiction.
  - assert (Hin : In a [8; 9; 10; 11; 12; 13]) by (simpl; lia).
    simpl in Hin.
    repeat (destruct Hin as [<-|Hin]; [vm_compute; tauto|]). contradiction.
Qed.

(** The [k]-th seed falls [k + 1] steps along the cycle from the house. *)
Lemma sow_path_lookup (p : Player) (n pit k : nat) :
  k < n -> sow_path p n pit !! k = Some (Nat.iter (S k) (next_pit p) pit).
Proof.
  revert pit k. induction n as [|n IH]; intros pit k Hk; [lia|].
  destruct k as [|k]; [reflexivity|].
  cbn [sow_path lookup list_lookup]. rewrite IH by lia.
  by rewrite <- Nat.iter_succ_r.
Qed.

Lemma store_lt (p : Player) : store p < kTotalPits.
Proof. unfold store, kTotalPits. destruct (p =? 0); lia. Qed.

Lemma store_opponent_ne (p : Player) : p < 2 -> store p <> store (opponent p).
Proof. intros Hp. two_players p Hp; vm_compute; lia. Qed.

Lemma is_legal_inv (p : Player) (b : list Z) (a : nat) :
  is_legal p b a = true -> owns_house p a = true /\ (0 < b !!! a)%Z.
Proof.
  unfold is_legal. rewrite andb_true_iff, Z.ltb_lt. tauto.
Qed.

Lemma captures_inv (p : Player) (last : nat) (b : list Z) :
  captures p last b = true ->
  b !!! last = 1%Z /\ owns_house p last = true /\ (0 < b !!! opposite last)%Z.
Proof.
  unfold captures. rewrite !andb_true_iff, Z.eqb_eq, Z.ltb_lt. tauto.
Qed.

(** What a capture changes: the landing house, the house opposite, and the
    mover's store. *)
Lemma capture_lookup (p : Player) (last : nat) (b : list Z) :
  p < 2 -> length b = kTotalPits -> owns_house p last = true ->
  length (capture p last b) = kTotalPits /\
  capture p last b !!! store (opponent p) = b !!! store (opponent p) /\
  (capture p last b !!! store p =
   b !!! store p + (1 + b !!! opposite last))%Z /\
  capture p last b !!! last = 0%Z /\
  capture p last b !!! opposite last = 0%Z /\
  (forall j : nat, j <> store p -> j <> last -> j <> opposite last ->
     capture p last b !!! j = b !!! j).
Proof.
  intros Hp Hlen Hown.
  destruct (owns_house_range p last Hp Hown)
    as (Hl & Hls & Hlo & Hol & Hos & Hoo & Hne).
  pose proof (store_lt p) as Hst.
  pose proof (store_opponent_ne p Hp) as Hso.
  unfold capture. repeat split.
  - by rewrite !length_insert.
  - rewrite !list_lookup_total_insert_ne by congruence. reflexivity.
  - rewrite !list_lookup_total_insert_ne by congruence.
    rewrite list_lookup_total_insert_eq by lia. reflexivity.
  - rewrite list_lookup_total_insert_ne by congruence.
    rewrite list_lookup_total_insert_eq by (rewrite length_insert; lia).
    reflexivity.
  - rewrite list_lookup_total_insert_eq by (rewrite !length_insert; lia).
    reflexivity.
  - intros j Hjs Hjl Hjo.
    rewrite !list_lookup_total_insert_ne by congruence. reflexivity.
Qed.

(** C7. A legal sowing move puts one seed into each pit of its path, the path
    follows one fixed cycle through the 13 pits that are not the opponent's
    store, and the opponent's store is never on it; the move leaves the
    opponent's store as it was, and a house with at least as many seeds as
    pits up to the mover's own store increases that store. *)
Theorem sowing_skips_opponent_store (p : Player) (b : list Z) (a : nat) :
  p < 2 -> length b = kTotalPits -> is_legal p b a = true ->
  let n := Z.to_nat (b !!! a) in
  let path := sow_path p n a in
  length path = n /\
  (forall k : nat, k < n ->
     path !! k = Some (Nat.iter (S k) (next_pit p) a)) /\
  (forall i j : nat,
     i < kTotalPits -> i <> store (opponent p) ->
     j < kTotalPits -> j <> store (opponent p) ->
     Nat.iter 13 (next_pit p) i = i /\
     count_occ Nat.eq_dec (sow_path p 13 i) j = 1) /\
  (forall j : nat,
     ((sow_from p b a).2 !!! j =
      <[a := 0%Z]> b !!! j + Z.of_nat (count_occ Nat.eq_dec path j))%Z) /\
  ~ In (store (opponent p)) path /\
  exists b' : list Z,
    ApplyAction p b a = Some b' /\
    length b' = kTotalPits /\
    b' !!! store (opponent p) = b !!! store (opponent p) /\
    (seeds_to_store p a <= n -> (b !!! store p < b' !!! store p)%Z).
Proof.
  intros Hp Hlen Hlegal n path.
  destruct (is_legal_inv p b a Hlegal) as [Hown Hseeds].
  destruct (owns_house_range p a Hp Hown) as (Ha & Has & Hao & _).
  assert (Hlen0 : length (<[a := 0%Z]> b) = kTotalPits)
    by (by rewrite length_insert).
  assert (Hsown : forall j : nat,
            ((sow_from p b a).2 !!! j =
             <[a := 0%Z]> b !!! j
             + Z.of_nat (count_occ Nat.eq_dec path j))%Z)
    by (intros j; apply sow_lookup, Hlen0).
  assert (Hskip : ~ In (store (opponent p)) path)
    by apply sow_path_not_opponent_store, Hp.
  split; [apply sow_path_length|].
  split; [intros k Hk; by apply sow_path_lookup|].
  split; [intros i j; by apply sow_cycle|].
  split; [exact Hsown|]. split; [exact Hskip|].
  (* the board after sowing *)
  assert (Hopp : (sow_from p b a).2 !!! store (opponent p)
                 = b !!! store (opponent p)).
  { rewrite Hsown, (proj1 (count_occ_not_In Nat.eq_dec path _) Hskip).
    rewrite list_lookup_total_insert_ne by exact Hao. simpl. lia. }
  assert (Hown_store : (b !!! store p <= (sow_from p b a).2 !!! store p)%Z /\
            (seeds_to_store p a <= n ->
             (b !!! store p < (sow_from p b a).2 !!! store p)%Z)).
  { rewrite Hsown. rewrite list_lookup_total_insert_ne by exact Has.
    split; [lia|]. intros Hreach.
    assert (Hin : In (store p) path)
      by (eapply sow_path_mono; [exact Hreach|by apply store_on_path]).
    apply (count_occ_In Nat.eq_dec) in Hin. lia. }
  assert (Hlen1 : length (sow_from p b a).2 = kTotalPits)
    by (unfold sow_from; by rewrite sow_length).
  unfold ApplyAction. rewrite Hlegal.
  destruct (sow_from p b a) as [last b1] eqn:Hsow. simpl in *.
  destruct (captures p last b1) eqn:Hcap.
  - destruct (captures_inv p last b1 Hcap) as (_ & Hlast & Hpos).
    destruct (capture_lookup p last b1 Hp Hlen1 Hlast)
      as (Hl & Ho & Hs & _).
    exists (capture p last b1). split; [reflexivity|].
    split; [exact Hl|]. split; [by rewrite Ho|].
    intros _. rewrite Hs. destruct Hown_store as [Hle _]. lia.
  - exists b1. split; [reflexivity|]. split; [exact Hlen1|].
    split; [exact Hopp|]. apply Hown_store.
Qed.

(** The three tests of kalah_test.cc pass on the model. *)
Lemma kalah_tests_pass :
  CaptureWhenOppositeHouseNotEmptyTest = true /\
  DoNotCaptureWhenOppositeHouseIsEmptyTest = true /\
  DoNotAddSeedToOpponentsStoreTest = true.
Proof. repeat split; vm_compute; reflexivity. Qed.

Lemma next_pit_own_house (p : Player) (a : nat) :
  p < 2 -> owns_house p a = true -> owns_house p (next_pit p a) = true ->
  next_pit p a = a + 1.
Proof.
  intros Hp Hown Hnext.
  destruct (owns_house_cases p a Hp Hown) as [[-> Ha]|[-> Ha]].
  - assert (Hin : In a [1; 2; 3; 4; 5; 6]) by (simpl; lia).
    simpl in Hin.
    repeat (destruct Hin as [<-|Hin]; [vm_compute in Hnext |- *; congruence|]).
    contradiction.
  - assert (Hin : In a [8; 9; 10; 11; 12; 13]) by (simpl; lia).
    simpl in Hin.
    repeat (destruct Hin as [<-|Hin]; [vm_compute in Hnext |- *; congruence|]).
    contradiction.
Qed.

(** A single seed sown into the mover's next house, which is empty and
    faces a house with [k > 0] seeds: the seed and the [k] seeds go to the
    mover's store. *)
Lemma single_seed_capture (p : Player) (b : list Z) (a : nat) (k : Z) :
  p < 2 -> length b = kTotalPits ->
  owns_house p a = true -> owns_house p (next_pit p a) = true ->
  b !!! a = 1%Z -> b !!! next_pit p a = 0%Z ->
  b !!! opposite (next_pit p a) = k -> (0 < k)%Z ->
  exists b' : list Z,
    ApplyAction p b a = Some b' /\
    b' !!! a = 0%Z /\
    b' !!! next_pit p a = 0%Z /\
    b' !!! opposite (next_pit p a) = 0%Z /\
    (b' !!! store p = b !!! store p + (1 + k))%Z.
Proof.
  intros Hp Hlen Hown Hnext Hone Hempty Hopp Hk.
  pose proof (next_pit_own_house p a Hp Hown Hnext) as Hstep.
  destruct (owns_house_range p a Hp Hown) as (Ha & Has & _).
  destruct (owns_house_range p _ Hp Hnext)
    as (Hl & Hls & _ & Hol & Hos & _ & Hne).
  set (l := next_pit p a) in *.
  assert (Hla : l <> a) by lia.
  assert (Hoa : opposite l <> a).
  { unfold opposite, kTotalPits in *.
    destruct (owns_house_cases p a Hp Hown) as [[_ H1]|[_ H1]];
      destruct (owns_house_cases p l Hp Hnext) as [[? H2]|[? H2]]; lia. }
  unfold ApplyAction, is_legal. rewrite Hown, Hone. cbn [andb Z.ltb Z.compare].
  unfold sow_from. rewrite Hone. change (Z.to_nat 1) with 1. cbn [sow].
  fold l.
  set (b1 := <[l := (<[a := 0%Z]> b !!! l + 1)%Z]> (<[a := 0%Z]> b)).
  assert (Hlen1 : length b1 = kTotalPits)
    by (unfold b1; by rewrite !length_insert).
  assert (H1l : b1 !!! l = 1%Z).
  { unfold b1. rewrite list_lookup_total_insert_eq
      by (rewrite length_insert; lia).
    rewrite list_lookup_total_insert_ne by congruence. lia. }
  assert (H1o : b1 !!! opposite l = k).
  { unfold b1. rewrite !list_lookup_total_insert_ne by congruence.
    exact Hopp. }
  assert (H1s : b1 !!! store p = b !!! store p).
  { unfold b1. rewrite !list_lookup_total_insert_ne by congruence.
    reflexivity. }
  assert (H1a : b1 !!! a = 0%Z).
  { unfold b1. rewrite list_lookup_total_insert_ne by congruence.
    rewrite list_lookup_total_insert_eq by lia. reflexivity. }
  assert (Hcap : captures p l b1 = true).
  { unfold captures. rewrite H1l, H1o, Hnext.
    apply andb_true_iff. split; [reflexivity|]. by apply Z.ltb_lt. }
  rewrite Hcap.
  destruct (capture_lookup p l b1 Hp Hlen1 Hnext)
    as (_ & _ & Hs & Hcl & Hco & Hframe).
  exists (capture p l b1). split; [reflexivity|].
  split; [rewrite Hframe by congruence; exact H1a|].
  split; [exact Hcl|]. split; [exact Hco|].
  rewrite Hs, H1s, H1o. reflexivity.
Qed.

(** C3, as the tests have it. On the board of
    [CaptureWhenOppositeHouseNotEmptyTest] (player 1's store at index 0,
    player 0's houses 1..6, player 0's store at index 7, player 1's houses
    8..13; house 3 holds 1 seed, house 10 holds 4 seeds, every other pit is
    empty) house 3 is player 0's only legal action; its seed lands in the
    empty house 4, whose opposite house 10 is not empty, and the move leaves
    house 3, house 4 and house 10 empty and player 0's store (index 7) 5
    seeds higher. *)
Theorem capture_scenario_house10 :
  LegalActions 0 board_house10 = [3] /\
  BoardAt board_house10 3 = 1%Z /\
  BoardAt board_house10 10 = 4%Z /\
  (forall i : nat, i < kTotalPits -> i <> 3 -> i <> 10 ->
     BoardAt board_house10 i = 0%Z) /\
  next_pit 0 3 = 4 /\
  owns_house 0 4 = true /\
  opposite 4 = 10 /\
  store 0 = 7 /\
  exists b' : list Z,
    ApplyAction 0 board_house10 3 = Some b' /\
    BoardAt b' 3 = 0%Z /\
    BoardAt b' 4 = 0%Z /\
    BoardAt b' 10 = 0%Z /\
    (BoardAt b' 7 = BoardAt board_house10 7 + 5)%Z /\
    BoardAt b' 7 = 5%Z.
Proof.
  split; [reflexivity|]. split; [reflexivity|]. split; [reflexivity|].
  split.
  { intros i Hi H3 H10. unfold BoardAt, board_house10, kTotalPits in *.
    do 14 (destruct i as [|i]; [try reflexivity; congruence|]).
    lia. }
  split; [reflexivity|]. split; [reflexivity|].
  split; [reflexivity|]. split; [reflexivity|].
  destruct (single_seed_capture 0 board_house10 3 4)
    as (b' & Happ & H3 & H4 & H10 & H7); try reflexivity; try lia.
  exists b'. unfold BoardAt.
  change (next_pit 0 3) with 4 in *. change (opposite 4) with 10 in *.
  change (store 0) with 7 in *.
  repeat split; assumption.
Qed.

(** C3, as the spec words it: with the 4 seeds in house 9 the seed sown from
    house 3 stays in house 4, house 9 keeps its seeds, and neither index 6 nor
    player 0's store gains anything. This is the board and the outcome of
    [DoNotCaptureWhenOppositeHouseIsEmptyTest]. *)
Lemma capture_scenario_house9_fails :
  BoardAt board_house9 3 = 1%Z /\
  BoardAt board_house9 9 = 4%Z /\
  ApplyAction 0 board_house9 3
    = Some [0; 0; 0; 0; 1; 0; 0; 0; 0; 4; 0; 0; 0; 0]%Z /\
  ~ (exists b' : list Z,
       ApplyAction 0 board_house9 3 = Some b' /\
       BoardAt b' 3 = 0%Z /\
       BoardAt b' 4 = 0%Z /\
       BoardAt b' 9 = 0%Z /\
       (BoardAt b' 6 = BoardAt board_house9 6 + 5)%Z).
Proof.
  split; [reflexivity|]. split; [reflexivity|].
  assert (Happ : ApplyAction 0 board_house9 3
                 = Some [0; 0; 0; 0; 1; 0; 0; 0; 0; 4; 0; 0; 0; 0]%Z)
    by (vm_compute; reflexivity).
  split; [exact Happ|].
  intros (b' & Hb' & _ & H4 & _). rewrite Happ in Hb'.
  injection Hb' as <-. vm_compute in H4. discriminate.
Qed.

(** The hypotheses of [sowing_skips_opponent_store] hold on the board of
    [DoNotAddSeedToOpponentsStoreTest], player 0 playing house 6: its 8 seeds
    pass player 0's store and skip player 1's. *)
Lemma sowing_skips_opponent_store_witness :
  (0 < 2 /\ length board_house6 = kTotalPits /\
   is_legal 0 board_house6 6 = true) /\
  sow_path 0 8 6 = [7; 8; 9; 10; 11; 12; 13; 1] /\
  exists b' : list Z,
    ApplyAction 0 board_house6 6 = Some b' /\
    BoardAt b' 0 = BoardAt board_house6 0 /\
    (BoardAt board_house6 7 < BoardAt b' 7)%Z.
Proof.
  assert (H1 : 0 < 2) by lia.
  assert (H2 : length board_house6 = kTotalPits) by reflexivity.
  assert (H3 : is_legal 0 board_house6 6 = true) by reflexivity.
  split; [auto|]. split; [reflexivity|].
  destruct (sowing_skips_opponent_store 0 board_house6 6 H1 H2 H3)
    as (_ & _ & _ & _ & _ & b' & Happ & _ & Hopp & Hown).
  exists b'. split; [exact Happ|]. split; [exact Hopp|].
  apply Hown. vm_compute. lia.
Defined.

End KalahProofs.

(** ** Laws of the board accessors of 2048.h *)

Module BoardLaws.
Import TwoZeroFourEight TwoZeroFourEightProofs.

(** Row-major indices of in-range columns determine the row and the column. *)
Lemma row_major_inj (cols r c r' c' : Z) :
  0 <= c < cols -> 0 <= c' < cols ->
  r * cols + c = r' * cols + c' -> r = r' /\ c = c'.
Proof.
  intros Hc Hc' Heq.
  assert (r = r') by (destruct (Z.lt_trichotomy r r') as [?|[?|?]]; nia).
  subst r'. split; [reflexivity|lia].
Qed.

Lemma cell_index_inj (s : State) (r c r' c' : Z) :
  board_wf s ->
  0 <= r < rows_ s -> 0 <= c < columns_ s ->
  0 <= r' < rows_ s -> 0 <= c' < columns_ s ->
  cell_index s r c = cell_index s r' c' -> r = r' /\ c = c'.
Proof.
  intros Hwf Hr Hc Hr' Hc' Heq.
  rewrite !cell_index_in_bounds in Heq by assumption.
  injection Heq as Heq.
  apply (row_major_inj (columns_ s)); [assumption..|].
  apply Z2Nat.inj in Heq; nia.
Qed.

Lemma SetBoard_Some (s : State) (r c v : Z) (k : nat) :
  cell_index s r c = Some k ->
  SetBoard s r c v = Some (with_board s (<[k := v]> (board_ s))).
Proof. intros Hk. unfold SetBoard. rewrite Hk. reflexivity. Qed.

Lemma SetBoard_inv (s s' : State) (r c v : Z) :
  SetBoard s r c v = Some s' ->
  exists k : nat,
    cell_index s r c = Some k /\ s' = with_board s (<[k := v]> (board_ s)).
Proof.
  unfold SetBoard. destruct (cell_index s r c) as [k|]; [|discriminate].
  intros [= <-]. eauto.
Qed.

(** Replacing the board by one of the same length changes no address. *)
Lemma cell_index_with_board (s : State) (b : list Z) (r c : Z) :
  length b = length (board_ s) ->
  cell_index (with_board s b) r c = cell_index s r c.
Proof.
  intros Hlen. unfold cell_index, flat_index, vector_index. simpl.
  rewrite Hlen. reflexivity.
Qed.

Lemma with_board_id (s : State) : with_board s (board_ s) = s.
Proof. destruct s. reflexivity. Qed.

Lemma with_board_twice (s : State) (b b' : list Z) :
  with_board (with_board s b) b' = with_board s b'.
Proof. reflexivity. Qed.

(** Where the accessors are defined on a well-formed board. *)
Lemma cell_index_is_Some (s : State) (r c : Z) :
  board_wf s ->
  is_Some (cell_index s r c) <->
  is_int (r * columns_ s) = true /\
  0 <= r * columns_ s + c < rows_ s * columns_ s.
Proof.
  intros (Hr & Hc & Hmax & Hlen).
  unfold cell_index, flat_index, vector_index. rewrite Hlen.
  split.
  - intros [k Hk].
    destruct (is_int (r * columns_ s)) eqn:E1; [|discriminate].
    destruct (is_int (r * columns_ s + c)) eqn:E2; [|discriminate].
    simpl in Hk.
    destruct ((0 <=? r * columns_ s + c)
              && (r * columns_ s + c <? rows_ s * columns_ s)) eqn:E3;
      [|discriminate].
    apply andb_true_iff in E3 as [H0 H1].
    apply Z.leb_le in H0. apply Z.ltb_lt in H1. auto.
  - intros (E1 & H0 & H1). rewrite E1.
    assert (E2 : is_int (r * columns_ s + c) = true).
    { apply is_int_spec. unfold int_min. lia. }
    rewrite E2. simpl.
    assert (E3 : (0 <=? r * columns_ s + c) = true) by by apply Z.leb_le.
    assert (E4 : (r * columns_ s + c <? rows_ s * columns_ s) = true)
      by by apply Z.ltb_lt.
    rewrite E3, E4. eauto.
Qed.

(** X1. On a well-formed board two different in-bounds cells are different
    elements of [board_], so [SetBoard] on one of them leaves what [BoardAt]
    reads at the other. *)
Theorem SetBoard_keeps_other_cells (s : State) (r c r' c' v : Z) :
  board_wf s ->
  0 <= r < rows_ s -> 0 <= c < columns_ s ->
  0 <= r' < rows_ s -> 0 <= c' < columns_ s ->
  (r, c) <> (r', c') ->
  cell_index s r c <> cell_index s r' c' /\
  exists s' : State,
    SetBoard s r c v = Some s' /\
    BoardAt s' r' c' = BoardAt s r' c' /\
    BoardAt s' r c = Some v.
Proof.
  intros Hwf Hr Hc Hr' Hc' Hne.
  assert (Hdiff : cell_index s r c <> cell_index s r' c').
  { intros Heq. destruct (cell_index_inj s r c r' c') as [-> ->]; auto. }
  split; [exact Hdiff|].
  pose proof (cell_index_in_bounds s r c Hwf Hr Hc) as Hk.
  pose proof (cell_index_in_bounds s r' c' Hwf Hr' Hc') as Hk'.
  set (k := Z.to_nat (r * columns_ s + c)) in *.
  set (k' := Z.to_nat (r' * columns_ s + c')) in *.
  exists (with_board s (<[k := v]> (board_ s))).
  split; [by apply SetBoard_Some|].
  unfold BoardAt.
  rewrite !cell_index_with_board by apply length_insert.
  rewrite Hk, Hk'. simpl. split.
  - apply list_lookup_insert_ne. congruence.
  - apply list_lookup_insert_eq. by apply cell_index_Some in Hk as [_ ?].
Qed.

(** X2. On a well-formed board every element [k] of [board_] is the cell
    [(k / columns_, k mod columns_)], which is in bounds: with X1, the
    in-bounds cells and the elements of the vector correspond one to one. *)
Theorem every_element_is_a_cell (s : State) (k : nat) :
  board_wf s -> (k < length (board_ s))%nat ->
  let r := Z.of_nat k / columns_ s in
  let c := Z.of_nat k mod columns_ s in
  0 <= r < rows_ s /\ 0 <= c < columns_ s /\
  cell_index s r c = Some k /\
  BoardAt s r c = board_ s !! k.
Proof.
  intros Hwf Hk r c. pose proof Hwf as (Hr & Hc & Hmax & Hlen).
  assert (Hmod : 0 <= c < columns_ s) by (apply Z.mod_pos_bound; lia).
  assert (Hdm : Z.of_nat k = columns_ s * r + c)
    by (apply Z.div_mod; lia).
  assert (Hrow : 0 <= r < rows_ s).
  { split; [apply Z.div_pos; lia|].
    apply Z.div_lt_upper_bound; lia. }
  assert (Hcell : cell_index s r c = Some k).
  { rewrite cell_index_in_bounds by assumption. f_equal. lia. }
  repeat split; try lia; try exact Hcell.
  unfold BoardAt. rewrite Hcell. reflexivity.
Qed.

(** X3. Two [SetBoard] calls on the same cell: the second value stays, and the
    state is the one a single call with that value gives. *)
Theorem SetBoard_last_write_wins (s s1 : State) (r c v w : Z) :
  SetBoard s r c v = Some s1 ->
  SetBoard s1 r c w = SetBoard s r c w /\
  exists s2 : State, SetBoard s1 r c w = Some s2 /\ BoardAt s2 r c = Some w.
Proof.
  intros Hset. destruct (SetBoard_inv _ _ _ _ _ Hset) as (k & Hk & ->).
  assert (Hk1 : cell_index (with_board s (<[k := v]> (board_ s))) r c = Some k)
    by (rewrite cell_index_with_board by apply length_insert; exact Hk).
  rewrite (SetBoard_Some _ r c w k Hk1), (SetBoard_Some s r c w k Hk).
  simpl. rewrite list_insert_insert_eq, with_board_twice.
  split; [reflexivity|]. eexists. split; [reflexivity|].
  unfold BoardAt.
  rewrite cell_index_with_board by apply length_insert.
  rewrite Hk. simpl. apply list_lookup_insert_eq.
  by apply cell_index_Some in Hk as [_ ?].
Qed.

(** X4. [SetBoard] calls on two different in-bounds cells of a well-formed
    board commute: either order ends in the same state. *)
Theorem SetBoard_commutes (s : State) (r c v r' c' w : Z) :
  board_wf s ->
  0 <= r < rows_ s -> 0 <= c < columns_ s ->
  0 <= r' < rows_ s -> 0 <= c' < columns_ s ->
  (r, c) <> (r', c') ->
  exists s2 : State,
    (s1 ← SetBoard s r c v; SetBoard s1 r' c' w) = Some s2 /\
    (s1 ← SetBoard s r' c' w; SetBoard s1 r c v) = Some s2.
Proof.
  intros Hwf Hr Hc Hr' Hc' Hne.
  pose proof (cell_index_in_bounds s r c Hwf Hr Hc) as Hk.
  pose proof (cell_index_in_bounds s r' c' Hwf Hr' Hc') as Hk'.
  assert (Hdiff : Z.to_nat (r * columns_ s + c)
                  <> Z.to_nat (r' * columns_ s + c')).
  { intros Heq. destruct (cell_index_inj s r c r' c') as [-> ->]; auto.
    congruence. }
  set (k := Z.to_nat (r * columns_ s + c)) in *.
  set (k' := Z.to_nat (r' * columns_ s + c')) in *.
  exists (with_board s (<[k' := w]> (<[k := v]> (board_ s)))).
  rewrite (SetBoard_Some s r c v k Hk), (SetBoard_Some s r' c' w k' Hk').
  simpl.
  rewrite (SetBoard_Some _ r' c' w k'), (SetBoard_Some _ r c v k)
    by (rewrite cell_index_with_board by apply length_insert; assumption).
  simpl. rewrite !with_board_twice. split; [reflexivity|].
  do 2 f_equal. apply list_insert_insert_ne. congruence.
Qed.

(** X5. Writing back the value that [BoardAt] reads at a cell leaves the
    state as it is. *)
Theorem SetBoard_of_BoardAt (s : State) (r c v : Z) :
  BoardAt s r c = Some v -> SetBoard s r c v = Some s.
Proof.
  unfold BoardAt. intros Hread.
  destruct (cell_index s r c) as [k|] eqn:Hk; [|discriminate].
  simpl in Hread. rewrite (SetBoard_Some s r c v k Hk).
  rewrite list_insert_id by exact Hread. by rewrite with_board_id.
Qed.

(** X6. [SetBoard] keeps the board well formed and changes no address: after
    it [SetBoard] and [BoardAt] are defined at the coordinates at which they
    were defined before. *)
Theorem SetBoard_keeps_layout (s s' : State) (r c v : Z) :
  SetBoard s r c v = Some s' ->
  (board_wf s -> board_wf s') /\
  (forall r' c' : Z, cell_index s' r' c' = cell_index s r' c') /\
  (forall r' c' : Z, is_Some (BoardAt s' r' c') <-> is_Some (BoardAt s r' c')) /\
  (forall r' c' w : Z,
     is_Some (SetBoard s' r' c' w) <-> is_Some (SetBoard s r' c' w)).
Proof.
  intros Hset. destruct (SetBoard_inv _ _ _ _ _ Hset) as (k & Hk & ->).
  assert (Hidx : forall r' c' : Z,
            cell_index (with_board s (<[k := v]> (board_ s))) r' c'
            = cell_index s r' c')
    by (intros; apply cell_index_with_board, length_insert).
  split; [|split; [exact Hidx|split]].
  - unfold board_wf. simpl. by rewrite length_insert.
  - intros r' c'. unfold BoardAt. rewrite Hidx.
    destruct (cell_index s r' c') as [k'|] eqn:Hk'; simpl; [|reflexivity].
    rewrite !lookup_lt_is_Some, length_insert. reflexivity.
  - intros r' c' w. unfold SetBoard. rewrite Hidx.
    destruct (cell_index s r' c'); simpl; split; intros [? ?];
      try discriminate; eauto.
Qed.

(** X7. Bounds. On a well-formed board [BoardAt] and [SetBoard] are defined
    at [(r, c)] exactly when the flat index [r * columns_ + c] lies in
    [0, rows_ * columns_) (and [r * columns_] is an [int]); for a column in
    range that is exactly when the row is in range. *)
Theorem accessors_defined_iff (s : State) (r c v : Z) :
  board_wf s ->
  (is_Some (BoardAt s r c) <->
   is_int (r * columns_ s) = true /\
   0 <= r * columns_ s + c < rows_ s * columns_ s) /\
  (is_Some (SetBoard s r c v) <-> is_Some (BoardAt s r c)) /\
  (0 <= c < columns_ s ->
   (is_Some (BoardAt s r c) <-> 0 <= r < rows_ s)).
Proof.
  intros Hwf.
  assert (Hread : is_Some (BoardAt s r c) <-> is_Some (cell_index s r c)).
  { unfold BoardAt. destruct (cell_index s r c) as [k|] eqn:Hk; simpl.
    - split; [eauto|]. intros _. apply lookup_lt_is_Some.
      by apply cell_index_Some in Hk as [_ ?].
    - split; intros [? ?]; discriminate. }
  assert (Hwrite : is_Some (SetBoard s r c v) <-> is_Some (cell_index s r c)).
  { unfold SetBoard. destruct (cell_index s r c); simpl; split;
      intros [? ?]; try discriminate; eauto. }
  split; [|split].
  - rewrite Hread. by apply cell_index_is_Some.
  - by rewrite Hread, Hwrite.
  - intros Hc. rewrite Hread, (cell_index_is_Some s r c Hwf).
    destruct Hwf as (Hr & Hcols & Hmax & Hlen). split.
    + intros (_ & H0 & H1). nia.
    + intros Hrow. split; [|nia].
      apply is_int_spec. unfold int_min. nia.
Qed.

(** X8. Neither accessor looks at the column alone: on a well-formed board a
    column one row's width too large is the same element as the cell one row
    further down, for reading and for writing. *)
Theorem column_overflow_wraps (s : State) (r c v : Z) :
  board_wf s ->
  0 <= r -> r + 1 < rows_ s -> 0 <= c < columns_ s ->
  BoardAt s r (c + columns_ s) = BoardAt s (r + 1) c /\
  SetBoard s r (c + columns_ s) v = SetBoard s (r + 1) c v /\
  is_Some (BoardAt s r (c + columns_ s)) /\
  BoardAt s (r + 1) (c - columns_ s) = BoardAt s r c.
Proof.
  intros Hwf Hr Hr1 Hc. pose proof Hwf as (Hrows & Hcols & Hmax & Hlen).
  assert (Hflat : flat_index s r (c + columns_ s) = flat_index s (r + 1) c).
  { unfold flat_index.
    replace (r * columns_ s + (c + columns_ s))
      with ((r + 1) * columns_ s + c) by lia.
    assert (E1 : is_int (r * columns_ s) = true)
      by (apply is_int_spec; unfold int_min; nia).
    assert (E2 : is_int ((r + 1) * columns_ s) = true)
      by (apply is_int_spec; unfold int_min; nia).
    by rewrite E1, E2. }
  assert (Hflat' : flat_index s (r + 1) (c - columns_ s) = flat_index s r c).
  { unfold flat_index.
    replace ((r + 1) * columns_ s + (c - columns_ s))
      with (r * columns_ s + c) by lia.
    assert (E1 : is_int (r * columns_ s) = true)
      by (apply is_int_spec; unfold int_min; nia).
    assert (E2 : is_int ((r + 1) * columns_ s) = true)
      by (apply is_int_spec; unfold int_min; nia).
    by rewrite E1, E2. }
  destruct (SetBoard_by_flat_index s (r + 1) c r (c + columns_ s) v Hflat)
    as [Hset Hread].
  destruct (SetBoard_by_flat_index s r c (r + 1) (c - columns_ s) v Hflat')
    as [_ Hread'].
  split; [exact Hread|]. split; [exact Hset|]. split; [|exact Hread'].
  rewrite Hread. unfold BoardAt.
  pose proof (cell_index_in_bounds s (r + 1) c Hwf ltac:(lia) Hc) as Hk.
  rewrite Hk. simpl. apply lookup_lt_is_Some.
  by apply cell_index_Some in Hk as [_ ?].
Qed.

Section CurrentPlayerLaws.

Variable kTerminalPlayerId : Player.
Variable IsTerminal : State -> bool.

(** X9. As long as [current_player_] is not itself [kTerminalPlayerId],
    [CurrentPlayer()] returns [kTerminalPlayerId] exactly in the terminal
    states; a non-terminal state that stores [kTerminalPlayerId] reports it
    all the same. *)
Theorem CurrentPlayer_detects_terminal (s : State) :
  (current_player_ s <> kTerminalPlayerId ->
   (CurrentPlayer kTerminalPlayerId IsTerminal s = kTerminalPlayerId
    <-> IsTerminal s = true)) /\
  (current_player_ s = kTerminalPlayerId ->
   CurrentPlayer kTerminalPlayerId IsTerminal s = kTerminalPlayerId).
Proof.
  unfold CurrentPlayer. split.
  - intros Hne. destruct (IsTerminal s); split; intros H;
      congruence.
  - intros Heq. by destruct (IsTerminal s).
Qed.

End CurrentPlayerLaws.

(** *** The laws run on the 4 x 4 sample state *)

Lemma CurrentPlayer_detects_terminal_witness :
  (CurrentPlayer (-4) (fun _ => false) sample_state = -4 <-> false = true) /\
  CurrentPlayer (-4) (fun _ => false)
    (mkState (-4) 0 kNoMultipleJumpsPossible 4 4 0 (replicate 16 0) []) = -4.
Proof.
  split.
  - apply (proj1 (CurrentPlayer_detects_terminal (-4) (fun _ => false)
                    sample_state)). discriminate.
  - exact (proj2 (CurrentPlayer_detects_terminal (-4) (fun _ => false)
                    (mkState (-4) 0 kNoMultipleJumpsPossible 4 4 0
                       (replicate 16 0) [])) eq_refl).
Defined.

Lemma sample_state_wf : board_wf sample_state.
Proof. unfold board_wf. vm_compute. intuition congruence. Qed.

Lemma SetBoard_keeps_other_cells_witness :
  cell_index sample_state 1 2 <> cell_index sample_state 2 1 /\
  exists s' : State,
    SetBoard sample_state 1 2 7 = Some s' /\
    BoardAt s' 2 1 = BoardAt sample_state 2 1 /\
    BoardAt s' 1 2 = Some 7.
Proof.
  apply (SetBoard_keeps_other_cells sample_state 1 2 2 1 7 sample_state_wf);
    first [ by vm_compute | discriminate ].
Defined.

Lemma every_element_is_a_cell_witness :
  cell_index sample_state 1 2 = Some 6%nat /\
  BoardAt sample_state 1 2 = board_ sample_state !! 6%nat.
Proof.
  destruct (every_element_is_a_cell sample_state 6 sample_state_wf
              ltac:(vm_compute; lia)) as (_ & _ & Hcell & Hread).
  split; [exact Hcell|exact Hread].
Defined.

Lemma SetBoard_last_write_wins_witness :
  SetBoard (with_board sample_state (<[6%nat := 7]> (board_ sample_state)))
    1 2 9 = SetBoard sample_state 1 2 9.
Proof.
  exact (proj1 (SetBoard_last_write_wins sample_state _ 1 2 7 9 eq_refl)).
Defined.

Lemma SetBoard_commutes_witness :
  exists s2 : State,
    (s1 ← SetBoard sample_state 1 2 7; SetBoard s1 3 0 9) = Some s2 /\
    (s1 ← SetBoard sample_state 3 0 9; SetBoard s1 1 2 7) = Some s2.
Proof.
  apply (SetBoard_commutes sample_state 1 2 7 3 0 9 sample_state_wf);
    first [ by vm_compute | discriminate ].
Defined.

Lemma SetBoard_of_BoardAt_witness :
  SetBoard sample_state 1 2 0 = Some sample_state.
Proof.
  exact (SetBoard_of_BoardAt sample_state 1 2 0 eq_refl).
Defined.

Lemma SetBoard_keeps_layout_witness :
  board_wf (with_board sample_state (<[6%nat := 7]> (board_ sample_state))).
Proof.
  exact (proj1 (SetBoard_keeps_layout sample_state _ 1 2 7 eq_refl)
           sample_state_wf).
Defined.

Lemma accessors_defined_iff_witness :
  (is_Some (BoardAt sample_state 4 0) <-> 0 <= 4 < rows_ sample_state) /\
  (is_Some (SetBoard sample_state 4 0 7)
   <-> is_Some (BoardAt sample_state 4 0)).
Proof.
  destruct (accessors_defined_iff sample_state 4 0 7 sample_state_wf)
    as (_ & Hwrite & Hrow).
  split; [apply Hrow; by vm_compute|exact Hwrite].
Defined.

Lemma column_overflow_wraps_witness :
  BoardAt sample_state 1 (2 + 4) = BoardAt sample_state 2 2 /\
  is_Some (BoardAt sample_state 1 (2 + 4)).
Proof.
  assert (H0 : 0 <= 1) by lia.
  assert (H1 : 1 + 1 < rows_ sample_state) by (by vm_compute).
  assert (H2 : 0 <= 2 < columns_ sample_state) by (by vm_compute).
  destruct (column_overflow_wraps sample_state 1 2 7 sample_state_wf H0 H1 H2)
    as (Hread & _ & Hsome & _).
  split; [exact Hread|exact Hsome].
Defined.

End BoardLaws.
